(** * Verification of the ticker aggregator of [src/lib.rs]

    Shallow embedding of [NetworkName], [TRACK], [name_from_symbol] and
    [test].  A panic of the Rust code ([.expect], [cache[symbol]]) is
    [None]; [HashMap]s are stdpp [gmap]s; [u16] is a [Z] with its
    wrap-around written out (release-profile arithmetic); [f32] is the
    IEEE-754 binary32 format given by Rocq's [SpecFloat] with precision 24
    and maximal exponent 128 (round to nearest, ties to even). *)

From Stdlib Require Import ZArith String List Lia.
From Stdlib Require Import Floats.SpecFloat.
From stdpp Require Import base gmap strings list.

Open Scope Z_scope.

(** ** Data model *)

Inductive NetworkName := N1 | N2 | N3.

#[global] Instance NetworkName_eq_dec : EqDecision NetworkName.
Proof. solve_decision. Defined.

Definition network_to_nat (n : NetworkName) : nat :=
  match n with N1 => 0 | N2 => 1 | N3 => 2 end.

Definition network_of_nat (k : nat) : NetworkName :=
  match k with 0%nat => N1 | 1%nat => N2 | _ => N3 end.

#[global] Instance NetworkName_countable : Countable NetworkName.
Proof.
  refine (inj_countable' network_to_nat network_of_nat _).
  by intros [].
Defined.

(** [f32] arithmetic. *)
Definition f32 := spec_float.
Definition f32_prec : Z := 24.
Definition f32_emax : Z := 128.
Definition f32_add (x y : f32) : f32 := SFadd f32_prec f32_emax x y.
Definition f32_div (x y : f32) : f32 := SFdiv f32_prec f32_emax x y.
(** [f32::default()], i.e. [0.0]. *)
Definition f32_zero : f32 := S754_zero false.
(** [count as f32] for an integer [count]. *)
Definition u16_as_f32 (c : Z) : f32 :=
  binary_normalize f32_prec f32_emax c 0 false.
(** The literal [0.k] (resp. [0.kk]) is the correctly rounded quotient
    [k / 10] (resp. [kk / 100]); both operands are exact in binary32. *)
Definition f32_lit (num den : Z) : f32 := f32_div (u16_as_f32 num) (u16_as_f32 den).

(** [u16] addition [+=] with wrap-around. *)
Definition u16_add (a b : Z) : Z := (a + b) mod 65536.

Record Ticker := mkTicker { symbol : string; price : f32 }.

Definition TRACK : list (string * NetworkName) :=
  [("S1", N1); ("S2", N2); ("s3", N3)]%string.

Abbreviation Cache := (gmap string NetworkName).
Abbreviation Res := (gmap NetworkName (Z * f32)).

(** ** [name_from_symbol]

    The static table is a parameter [track] so that the cached path can be
    shown not to consult it; [name_from_symbol] is the function of the
    source, on [TRACK]. *)

(** [TRACK.iter().find(|(sym, _)| *sym == symbol)]. *)
Definition track_find (track : list (string * NetworkName)) (sym : string)
  : option (string * NetworkName) :=
  List.find (fun kv => String.eqb (fst kv) sym) track.

Definition name_from_symbol_in (track : list (string * NetworkName))
    (sym : string) (cache : Cache) : option (NetworkName * Cache) :=
  let cache :=
    match cache !! sym with
    | Some _ => Some cache
    | None =>
        match track_find track sym with
        | Some (key, value) => Some (<[key := value]> cache)
        | None => None (* .expect("symbol is valid") panics *)
        end
    end in
  match cache with
  | None => None
  | Some cache =>
      match cache !! sym with
      | Some v => Some (v, cache)
      | None => None (* cache[symbol] panics *)
      end
  end.

Definition name_from_symbol (sym : string) (cache : Cache)
  : option (NetworkName * Cache) :=
  name_from_symbol_in TRACK sym cache.

(** ** [test] *)

(** One step of the [fold]: resolve, [entry(name).or_insert_with(Default::default)],
    [entry.0 += 1], [entry.1 += val.price]. *)
Definition test_step (st : option (Cache * Res)) (val : Ticker)
  : option (Cache * Res) :=
  match st with
  | None => None
  | Some (symbols_cache, res) =>
      match name_from_symbol (symbol val) symbols_cache with
      | None => None
      | Some (name, symbols_cache) =>
          let '(c, p) := default (0, f32_zero) (res !! name) in
          Some (symbols_cache, <[name := (u16_add c 1, f32_add p (price val))]> res)
      end
  end.

Definition test_fold (tickers : list Ticker) : option (Cache * Res) :=
  fold_left test_step tickers (Some (∅, ∅)).

(** The final [map(|(key, (count, price))| (key, (count, price / count as f32)))]. *)
Definition finalize (e : Z * f32) : Z * f32 :=
  let '(count, p) := e in (count, f32_div p (u16_as_f32 count)).

Definition test (tickers : list Ticker) : option (gmap NetworkName (Z * f32)) :=
  match test_fold tickers with
  | None => None
  | Some (_, res) => Some (finalize <$> res)
  end.

(** ** Specification-side notions *)

(** The network of the first table entry with this symbol. *)
Definition first_match (sym : string) : option NetworkName :=
  snd <$> track_find TRACK sym.

Definition all_valid (tickers : list Ticker) : bool :=
  forallb (fun t => bool_decide (is_Some (first_match (symbol t)))) tickers.

Definition tickers_of (n : NetworkName) (tickers : list Ticker) : list Ticker :=
  List.filter (fun t => bool_decide (first_match (symbol t) = Some n)) tickers.

(** Naive sum, in input order, starting from [0.0]. *)
Definition sum_prices (tickers : list Ticker) : f32 :=
  fold_left (fun acc t => f32_add acc (price t)) tickers f32_zero.

Definition cache_ok (cache : Cache) : Prop :=
  forall k v, cache !! k = Some v -> first_match k = Some v.

(** [acc_spec n l] is the accumulator entry of network [n] after folding
    the valid batch [l]: the wrapped count and the input-order sum. *)
Definition acc_spec (n : NetworkName) (l : list Ticker) : option (Z * f32) :=
  match tickers_of n l with
  | [] => None
  | ts => Some (Z.of_nat (length ts) mod 65536, sum_prices ts)
  end.

(** Sequences of resolutions threading one memo. *)
Fixpoint resolve_all (syms : list string) (cache : Cache)
  : option (list NetworkName * Cache) :=
  match syms with
  | [] => Some ([], cache)
  | s :: rest =>
      match name_from_symbol s cache with
      | None => None
      | Some (v, cache) =>
          match resolve_all rest cache with
          | None => None
          | Some (vs, cache) => Some (v :: vs, cache)
          end
      end
  end.

(** The fold of [test] started from a memo [cache0] that is already
    filled, with an empty accumulator. *)
Definition test_fold_from (cache0 : Cache) (tickers : list Ticker)
  : option (Cache * Res) :=
  fold_left test_step tickers (Some (cache0, ∅)).

(** The count of network [n] in a result of [test], 0 when absent. *)
Definition count_in (r : gmap NetworkName (Z * f32)) (n : NetworkName) : Z :=
  match r !! n with Some (c, _) => c | None => 0 end.

(** Two fold states agree on the accumulator and both memos are
    consistent with [TRACK]. *)
Definition same_acc (a b : option (Cache * Res)) : Prop :=
  match a, b with
  | None, None => True
  | Some (c1, r1), Some (c2, r2) => r1 = r2 /\ cache_ok c1 /\ cache_ok c2
  | _, _ => False
  end.

(** The assertion of [assert_float_absolute_eq!(expected, actual, eps)]:
    [(expected - actual).abs() <= eps], in [f32]. *)
Definition f32_abs_eq (expected actual eps : f32) : bool :=
  SFleb (SFabs (SFsub f32_prec f32_emax expected actual)) eps.

(** [f32::EPSILON] = 2^-23. *)
Definition f32_EPSILON : f32 := S754_finite false 1 (-23).

(** The batch of the unit test [test_correct]. *)
Definition test_correct_batch : list Ticker :=
  [mkTicker "S1" (f32_lit 1 10); mkTicker "S1" (f32_lit 2 10);
   mkTicker "S1" (f32_lit 3 10); mkTicker "S2" (f32_lit 4 10);
   mkTicker "S2" (f32_lit 5 10); mkTicker "S2" (f32_lit 6 10);
   mkTicker "s3" (f32_lit 7 10); mkTicker "s3" (f32_lit 8 10)]%string.

(** ** Lemmas on resolution *)

Lemma track_find_key track s k v :
  track_find track s = Some (k, v) -> k = s.
Proof.
  unfold track_find. intros H. apply find_some in H as [_ H].
  by apply String.eqb_eq in H.
Qed.

(** First match wins: [track_find] returns the entry after a prefix with
    no entry for [s]. *)
Lemma track_find_first track s v :
  track_find track s = Some (s, v) <->
  exists pre post, track = pre ++ (s, v) :: post /\
                   Forall (fun kv => fst kv <> s) pre.
Proof.
  induction track as [|[k w] track IH]; simpl.
  - split; [discriminate|]. intros (pre & post & Hl & _).
    destruct pre; discriminate.
  - unfold track_find in *. simpl. destruct (String.eqb k s) eqn:E.
    + apply String.eqb_eq in E as ->. split.
      * intros [= ->]. exists [], track. by split.
      * intros ([|[k' w'] pre] & post & Hl & Hpre); simpl in Hl.
        -- by injection Hl as ->.
        -- injection Hl as -> -> _. inversion Hpre; simpl in *; congruence.
    + rewrite IH. split.
      * intros (pre & post & -> & Hpre). exists ((k, w) :: pre), post.
        split; [done|]. constructor; [|done]. simpl. intros ->.
        by rewrite String.eqb_refl in E.
      * intros ([|[k' w'] pre] & post & Hl & Hpre); simpl in Hl.
        -- injection Hl as -> _ _. by rewrite String.eqb_refl in E.
        -- injection Hl as -> -> ->. inversion Hpre. eauto.
Qed.

Lemma track_find_none track s :
  track_find track s = None <-> Forall (fun kv => fst kv <> s) track.
Proof.
  unfold track_find. split.
  - intros H. apply Forall_forall. intros [k w] Hin Heq. simpl in Heq.
    subst. apply list_elem_of_In in Hin.
    eapply find_none in H; [|exact Hin]. simpl in H.
    by rewrite String.eqb_refl in H.
  - intros H. induction H as [|[k w] l Hk _ IH]; [done|]. simpl.
    destruct (String.eqb k s) eqn:E; [|done].
    by apply String.eqb_eq in E.
Qed.

Lemma name_from_symbol_in_hit track s (cache : Cache) v :
  cache !! s = Some v -> name_from_symbol_in track s cache = Some (v, cache).
Proof. intros H. unfold name_from_symbol_in. by rewrite H, H. Qed.

Lemma name_from_symbol_in_miss track s (cache : Cache) :
  cache !! s = None ->
  name_from_symbol_in track s cache =
    (fun kv => (snd kv, <[s := snd kv]> cache)) <$> track_find track s.
Proof.
  intros H. unfold name_from_symbol_in. rewrite H.
  destruct (track_find track s) as [[k v]|] eqn:E; [|done].
  apply track_find_key in E as ->. simpl. by rewrite lookup_insert_eq.
Qed.

Lemma name_from_symbol_ok s (cache : Cache) v cache' :
  cache_ok cache -> name_from_symbol s cache = Some (v, cache') ->
  cache_ok cache' /\ first_match s = Some v.
Proof.
  intros Hok. unfold name_from_symbol. destruct (cache !! s) as [w|] eqn:E.
  - rewrite (name_from_symbol_in_hit _ _ _ _ E). intros [= -> ->]. eauto.
  - rewrite (name_from_symbol_in_miss _ _ _ E).
    unfold first_match. destruct (track_find TRACK s) as [[k w]|] eqn:F;
      [|discriminate].
    simpl. intros [= <- <-]. split; [|done].
    intros k' v' Hk. destruct (decide (k' = s)) as [->|Hne].
    + rewrite lookup_insert_eq in Hk. injection Hk as <-.
      unfold first_match. by rewrite F.
    + rewrite lookup_insert_ne in Hk by congruence. by apply Hok.
Qed.

Lemma name_from_symbol_invalid s (cache : Cache) :
  cache_ok cache -> first_match s = None -> name_from_symbol s cache = None.
Proof.
  intros Hok Hs. unfold name_from_symbol. destruct (cache !! s) as [w|] eqn:E.
  - apply Hok in E. congruence.
  - rewrite (name_from_symbol_in_miss _ _ _ E). unfold first_match in Hs.
    by destruct (track_find TRACK s).
Qed.

Lemma name_from_symbol_valid s (cache : Cache) v :
  cache_ok cache -> first_match s = Some v ->
  exists cache', name_from_symbol s cache = Some (v, cache').
Proof.
  intros Hok Hs. unfold name_from_symbol. destruct (cache !! s) as [w|] eqn:E.
  - rewrite (name_from_symbol_in_hit _ _ _ _ E). apply Hok in E.
    rewrite E in Hs. injection Hs as ->. eauto.
  - rewrite (name_from_symbol_in_miss _ _ _ E). unfold first_match in Hs.
    destruct (track_find TRACK s) as [[k w]|]; simpl in *; [|discriminate].
    injection Hs as ->. eauto.
Qed.

(** ** Lemmas on the fold of [test] *)

Lemma fold_test_step_None (l : list Ticker) :
  fold_left test_step l None = None.
Proof. induction l; simpl; auto. Qed.

Lemma test_fold_snoc (l : list Ticker) t :
  test_fold (l ++ [t]) = test_step (test_fold l) t.
Proof. unfold test_fold. by rewrite fold_left_app. Qed.

Lemma test_fold_cache_ok (l : list Ticker) cache res :
  test_fold l = Some (cache, res) -> cache_ok cache.
Proof.
  revert cache res. induction l as [|t l IH] using rev_ind; intros cache res.
  - intros [= <- _]. intros k v. by rewrite lookup_empty.
  - rewrite test_fold_snoc. destruct (test_fold l) as [[c r]|]; [|done].
    simpl. destruct (name_from_symbol (symbol t) c) as [[n c']|] eqn:E;
      [|done].
    destruct (default _ _). intros [= <- _].
    eapply name_from_symbol_ok; eauto.
Qed.

(** All-or-nothing: one unknown symbol makes the whole fold fail. *)
Lemma test_fold_invalid (l : list Ticker) t :
  In t l -> first_match (symbol t) = None -> test_fold l = None.
Proof.
  intros Hin Hs. apply in_split in Hin as (l1 & l2 & ->).
  unfold test_fold. rewrite fold_left_app. simpl.
  destruct (fold_left test_step l1 (Some (∅, ∅))) as [[c r]|] eqn:E.
  - simpl. rewrite name_from_symbol_invalid; [apply fold_test_step_None| |done].
    eapply test_fold_cache_ok. exact E.
  - apply fold_test_step_None.
Qed.

Lemma all_valid_In (l : list Ticker) :
  all_valid l = true <-> forall t, In t l -> is_Some (first_match (symbol t)).
Proof.
  unfold all_valid. rewrite forallb_forall. split.
  - intros H t Hin. specialize (H t Hin). by apply bool_decide_eq_true in H.
  - intros H t Hin. apply bool_decide_eq_true. auto.
Qed.

Lemma test_fold_some_valid (l : list Ticker) st :
  test_fold l = Some st -> all_valid l = true.
Proof.
  intros H. apply all_valid_In. intros t Hin.
  destruct (first_match (symbol t)) eqn:E; [eauto|].
  rewrite (test_fold_invalid l t Hin E) in H. discriminate.
Qed.

Lemma tickers_of_snoc n (l : list Ticker) t :
  tickers_of n (l ++ [t]) =
  tickers_of n l ++ (if bool_decide (first_match (symbol t) = Some n)
                     then [t] else []).
Proof.
  unfold tickers_of. rewrite List.filter_app. simpl.
  by destruct (bool_decide _).
Qed.

Lemma sum_prices_snoc (ts : list Ticker) t :
  sum_prices (ts ++ [t]) = f32_add (sum_prices ts) (price t).
Proof. unfold sum_prices. by rewrite fold_left_app. Qed.

(** The invariant of the fold over a valid batch: the memo is consistent
    with the table and each network's entry is [acc_spec]. *)
Lemma test_fold_spec (l : list Ticker) :
  all_valid l = true ->
  exists cache res, test_fold l = Some (cache, res) /\ cache_ok cache /\
    forall n, res !! n = acc_spec n l.
Proof.
  induction l as [|t l IH] using rev_ind; intros Hv.
  - exists ∅, ∅. split; [done|]. split.
    + intros k v. by rewrite lookup_empty.
    + intros n. by rewrite lookup_empty.
  - assert (all_valid l = true /\ is_Some (first_match (symbol t))) as [Hl Ht].
    { rewrite all_valid_In in Hv. split.
      - apply all_valid_In. intros u Hu. apply Hv, in_or_app. auto.
      - apply Hv, in_or_app. simpl. auto. }
    destruct (IH Hl) as (c & r & Hf & Hok & Hr).
    destruct Ht as [m Hm].
    destruct (name_from_symbol_valid _ _ _ Hok Hm) as [c' Hc'].
    rewrite test_fold_snoc, Hf. simpl. rewrite Hc'.
    pose proof (name_from_symbol_ok _ _ _ _ Hok Hc') as [Hok' _].
    destruct (default (0, f32_zero) (r !! m)) as [cnt p] eqn:Ed.
    eexists _, _. split; [reflexivity|]. split; [done|].
    intros n. unfold acc_spec. rewrite tickers_of_snoc.
    destruct (decide (n = m)) as [->|Hne].
    + rewrite lookup_insert_eq, bool_decide_true by done.
      rewrite Hr in Ed. unfold acc_spec in Ed.
      destruct (tickers_of m l) as [|u us] eqn:Et; simpl in Ed.
      * injection Ed as <- <-. simpl. reflexivity.
      * injection Ed as <- <-. simpl.
        change (u :: us ++ [t]) with ((u :: us) ++ [t]).
        rewrite sum_prices_snoc, length_app. f_equal. f_equal.
        unfold u16_add. rewrite Zplus_mod_idemp_l. f_equal. simpl. lia.
    + rewrite lookup_insert_ne by congruence.
      rewrite bool_decide_false by congruence. rewrite app_nil_r.
      apply Hr.
Qed.

Lemma test_spec (l : list Ticker) :
  all_valid l = true ->
  exists r, test l = Some r /\ forall n, r !! n = finalize <$> acc_spec n l.
Proof.
  intros Hv. destruct (test_fold_spec l Hv) as (c & r & Hf & _ & Hr).
  unfold test. rewrite Hf. eexists. split; [reflexivity|].
  intros n. by rewrite lookup_fmap, Hr.
Qed.

Lemma test_keys (l : list Ticker) r n x :
  test l = Some r -> r !! n = Some x ->
  exists t, In t l /\ first_match (symbol t) = Some n.
Proof.
  intros Ht Hn. unfold test in Ht.
  destruct (test_fold l) as [[c res]|] eqn:Ef; [|discriminate].
  destruct (test_spec l (test_fold_some_valid l _ Ef)) as (r' & Ht' & Hr').
  unfold test in Ht'. rewrite Ef in Ht'. rewrite Ht' in Ht.
  injection Ht as <-. rewrite Hr' in Hn. unfold acc_spec in Hn.
  destruct (tickers_of n l) as [|u us] eqn:E; [discriminate|].
  assert (In u (tickers_of n l)) as Hu by (rewrite E; simpl; auto).
  unfold tickers_of in Hu. apply filter_In in Hu as [Hu Hb].
  apply bool_decide_eq_true in Hb. eauto.
Qed.

Lemma first_match_image s v :
  first_match s = Some v -> exists s', In (s', v) TRACK.
Proof.
  unfold first_match. destruct (track_find TRACK s) as [[k w]|] eqn:E;
    [|discriminate].
  simpl. intros [= <-]. exists k. unfold track_find in E.
  by apply find_some in E as [? _].
Qed.

Lemma resolve_all_ok syms (cache : Cache) names cache' :
  cache_ok cache -> resolve_all syms cache = Some (names, cache') ->
  cache_ok cache'.
Proof.
  revert cache names. induction syms as [|s syms IH]; simpl; intros cache names Hok.
  - by intros [= _ <-].
  - destruct (name_from_symbol s cache) as [[v c1]|] eqn:E; [|discriminate].
    destruct (resolve_all syms c1) as [[vs c2]|] eqn:E2; [|discriminate].
    intros [= _ <-]. eapply IH; [|exact E2].
    eapply name_from_symbol_ok; eauto.
Qed.

(** A batch where one network receives 2^16 tickers. *)
Definition ticker_S1_zero : Ticker := mkTicker "S1" f32_zero.
Definition overflow_batch : list Ticker := repeat ticker_S1_zero (Z.to_nat 65536).

Lemma all_valid_repeat k : all_valid (repeat ticker_S1_zero k) = true.
Proof. induction k; simpl; auto. Qed.

Lemma tickers_of_repeat k :
  tickers_of N1 (repeat ticker_S1_zero k) = repeat ticker_S1_zero k.
Proof. induction k; simpl; [done|]. by rewrite IHk. Qed.

Lemma acc_spec_repeat k :
  acc_spec N1 (repeat ticker_S1_zero (S k)) =
  Some (Z.of_nat (S k) mod 65536, sum_prices (repeat ticker_S1_zero (S k))).
Proof.
  unfold acc_spec. rewrite tickers_of_repeat.
  pose proof (repeat_length ticker_S1_zero (S k)) as Hlen.
  revert Hlen. generalize (repeat ticker_S1_zero (S k)).
  intros [|u us] Hlen; [discriminate|]. by rewrite Hlen.
Qed.

Lemma overflow_batch_fold :
  exists cache res p, test_fold overflow_batch = Some (cache, res) /\
    res !! N1 = Some (0, p).
Proof.
  destruct (test_fold_spec overflow_batch (all_valid_repeat _))
    as (c & r & Hf & _ & Hr).
  exists c, r, (sum_prices overflow_batch). split; [done|].
  rewrite Hr. unfold overflow_batch.
  replace (Z.to_nat 65536) with (S (Z.to_nat 65535)) by lia.
  rewrite acc_spec_repeat, Nat2Z.inj_succ, Z2Nat.id by lia. reflexivity.
Qed.

Lemma overflow_batch_test :
  exists r mu, test overflow_batch = Some r /\ r !! N1 = Some (0, mu).
Proof.
  destruct overflow_batch_fold as (c & r & p & Hf & Hr).
  unfold test. rewrite Hf. eexists _, _. split; [reflexivity|].
  by rewrite lookup_fmap, Hr.
Qed.

(** ** Claims *)

(** The result guarantee of [test] as the specification words it, with an
    unbounded count. *)
Definition C1_as_stated : Prop :=
  forall l : list Ticker, all_valid l = true ->
  exists r, test l = Some r /\ forall n,
    (r !! n = None <-> tickers_of n l = []) /\
    (forall c mu, r !! n = Some (c, mu) ->
       c = Z.of_nat (length (tickers_of n l)) /\
       mu = f32_div (sum_prices (tickers_of n l)) (u16_as_f32 c)).

(** C1 (amended). For every batch whose symbols are all in [TRACK], [test]
    returns a mapping with an entry for exactly the networks some ticker
    resolved to; an entry's count is the number of those tickers modulo
    2^16 (the number itself when it is at most 65535), and its mean is
    the input-order [f32] sum of their prices divided by [count as f32]. *)
Theorem C1_test_result (l : list Ticker) :
  all_valid l = true ->
  exists r, test l = Some r /\ forall n,
    (r !! n = None <-> tickers_of n l = []) /\
    (forall c mu, r !! n = Some (c, mu) ->
       c = Z.of_nat (length (tickers_of n l)) mod 65536 /\
       (Z.of_nat (length (tickers_of n l)) <= 65535 ->
          c = Z.of_nat (length (tickers_of n l))) /\
       mu = f32_div (sum_prices (tickers_of n l)) (u16_as_f32 c)).
Proof.
  intros Hv. destruct (test_spec l Hv) as (r & Ht & Hr).
  exists r. split; [done|]. intros n. rewrite Hr. unfold acc_spec.
  destruct (tickers_of n l) as [|u us]; simpl.
  - split; [done|]. discriminate.
  - split; [split; discriminate|]. intros c mu [= <- <-].
    split; [done|]. split; [|done]. intros Hle. apply Z.mod_small. lia.
Qed.

Lemma C1_test_result_witness :
  all_valid test_correct_batch = true /\
  exists r, test test_correct_batch = Some r /\ forall n,
    (r !! n = None <-> tickers_of n test_correct_batch = []) /\
    (forall c mu, r !! n = Some (c, mu) ->
       c = Z.of_nat (length (tickers_of n test_correct_batch)) mod 65536 /\
       (Z.of_nat (length (tickers_of n test_correct_batch)) <= 65535 ->
          c = Z.of_nat (length (tickers_of n test_correct_batch))) /\
       mu = f32_div (sum_prices (tickers_of n test_correct_batch)) (u16_as_f32 c)).
Proof.
  split; [vm_compute; reflexivity|].
  apply C1_test_result. vm_compute. reflexivity.
Defined.

(** C1 as stated fails: 65536 tickers of ["S1"] give [N1] the count 0. *)
Lemma C1_counterexample : ~ C1_as_stated.
Proof.
  intros H. destruct (H overflow_batch (all_valid_repeat _)) as (r & Ht & Hr).
  destruct overflow_batch_test as (r' & mu & Ht' & Hn).
  rewrite Ht in Ht'. injection Ht' as <-.
  destruct (Hr N1) as [_ Hc]. destruct (Hc _ _ Hn) as [Hc0 _].
  unfold overflow_batch in Hc0. rewrite tickers_of_repeat, repeat_length in Hc0.
  rewrite Z2Nat.id in Hc0 by lia. discriminate.
Qed.

(** C2. A batch with a ticker whose symbol matches no entry of [TRACK]
    (by case-sensitive equality) makes [test] fail as a whole: no mapping
    is returned, not even for the valid tickers before it. *)
Theorem C2_unknown_symbol_aborts (l : list Ticker) (t : Ticker) :
  In t l -> first_match (symbol t) = None -> test l = None.
Proof.
  intros Hin Hs. unfold test. by rewrite (test_fold_invalid l t Hin Hs).
Qed.

Lemma C2_unknown_symbol_aborts_witness :
  test [mkTicker "S1" f32_zero; mkTicker "foo" f32_zero; mkTicker "s3" f32_zero]%string
  = None.
Proof.
  apply (C2_unknown_symbol_aborts _ (mkTicker "foo" f32_zero)).
  - simpl. auto.
  - vm_compute. reflexivity.
Defined.

(** C3. On a memo hit, [name_from_symbol] returns the cached network and
    leaves the memo as it is, whatever the table (it does not consult it).
    On a miss it returns [v] and the memo extended with [(symbol, v)]
    exactly when [(symbol, v)] is the first entry of the table with that
    symbol (exact string equality), and fails exactly when no entry has
    that symbol. *)
Theorem C3_name_from_symbol_spec (track : list (string * NetworkName))
    (s : string) (cache : Cache) :
  (forall v, cache !! s = Some v ->
     forall track', name_from_symbol_in track' s cache = Some (v, cache)) /\
  (cache !! s = None ->
     (forall v cache',
        name_from_symbol_in track s cache = Some (v, cache') <->
        cache' = <[s := v]> cache /\
        exists pre post, track = pre ++ (s, v) :: post /\
                         Forall (fun kv => fst kv <> s) pre) /\
     (name_from_symbol_in track s cache = None <->
        Forall (fun kv => fst kv <> s) track)).
Proof.
  split.
  - intros v Hv track'. by apply name_from_symbol_in_hit.
  - intros Hmiss. rewrite (name_from_symbol_in_miss _ _ _ Hmiss). split.
    + intros v cache'. rewrite <- track_find_first. split.
      * destruct (track_find track s) as [[k w]|] eqn:E; [|discriminate].
        simpl. intros [= <- <-]. apply track_find_key in E as ->. done.
      * intros [-> ->]. reflexivity.
    + rewrite <- track_find_none. by destruct (track_find track s).
Qed.

(** C4. For a symbol of [TRACK] and any memo, a first call succeeds with
    some [v]; a second call with the updated memo returns the same [v],
    leaves that memo unchanged and gives the same answer for any table
    (it does not scan); the first call either left the memo unchanged or,
    on a miss, added exactly the entry [(symbol, v)]. *)
Theorem C4_name_from_symbol_idempotent (s : string) (cache : Cache) :
  is_Some (first_match s) ->
  exists v cache1,
    name_from_symbol s cache = Some (v, cache1) /\
    name_from_symbol s cache1 = Some (v, cache1) /\
    (forall track, name_from_symbol_in track s cache1 = Some (v, cache1)) /\
    (cache1 = cache \/ (cache !! s = None /\ cache1 = <[s := v]> cache)).
Proof.
  intros [w Hw]. unfold name_from_symbol.
  destruct (cache !! s) as [v|] eqn:E.
  - exists v, cache. rewrite !(name_from_symbol_in_hit _ _ _ _ E).
    repeat split; auto. intros track. by apply name_from_symbol_in_hit.
  - rewrite (name_from_symbol_in_miss _ _ _ E). unfold first_match in Hw.
    destruct (track_find TRACK s) as [[k v]|]; simpl in *; [|discriminate].
    exists v, (<[s := v]> cache).
    assert (<[s := v]> cache !! s = Some v) as Hs by apply lookup_insert_eq.
    split; [done|]. split; [by apply name_from_symbol_in_hit|].
    split; [intros; by apply name_from_symbol_in_hit|]. auto.
Qed.

Lemma C4_name_from_symbol_idempotent_witness :
  exists v cache1,
    name_from_symbol "S1" ∅ = Some (v, cache1) /\
    name_from_symbol "S1" cache1 = Some (v, cache1) /\
    (forall track, name_from_symbol_in track "S1" cache1 = Some (v, cache1)) /\
    (cache1 = ∅ \/ ((∅ : Cache) !! "S1" = None /\ cache1 = <[ "S1" := v]> ∅))%string.
Proof.
  apply C4_name_from_symbol_idempotent. vm_compute. eauto.
Defined.

(** C5. After any sequence of successful resolutions from an empty memo,
    each memo entry is the first match of its symbol in [TRACK], so each
    network in the memo is in the image of [TRACK]; each network key of a
    result of [test] is in that image too. *)
Theorem C5_memo_consistent (syms : list string) (names : list NetworkName)
    (cache : Cache) :
  resolve_all syms ∅ = Some (names, cache) ->
  (forall k v, cache !! k = Some v -> first_match k = Some v) /\
  (forall k v, cache !! k = Some v -> exists s, In (s, v) TRACK) /\
  (forall (l : list Ticker) r n x, test l = Some r -> r !! n = Some x ->
     exists s, In (s, n) TRACK).
Proof.
  intros H.
  assert (cache_ok cache) as Hok.
  { eapply resolve_all_ok; [|exact H]. intros k v. by rewrite lookup_empty. }
  split; [exact Hok|]. split.
  - intros k v Hk. eapply first_match_image, Hok, Hk.
  - intros l r n x Ht Hn. destruct (test_keys l r n x Ht Hn) as (t & _ & Hm).
    eapply first_match_image, Hm.
Qed.

Lemma C5_memo_consistent_witness :
  exists names cache, resolve_all ["S1"; "s3"; "S1"]%string ∅ = Some (names, cache) /\
  (forall k v, cache !! k = Some v -> first_match k = Some v) /\
  (forall k v, cache !! k = Some v -> exists s, In (s, v) TRACK) /\
  (forall (l : list Ticker) r n x, test l = Some r -> r !! n = Some x ->
     exists s, In (s, n) TRACK).
Proof.
  eexists _, _. split; [vm_compute; reflexivity|].
  eapply (C5_memo_consistent ["S1"; "s3"; "S1"]%string).
  vm_compute. reflexivity.
Defined.

(** C6. The empty batch gives the empty mapping, and a network is a key of
    a result only if some ticker of the batch resolved to it. *)
Theorem C6_no_zero_filling :
  test [] = Some ∅ /\
  forall (l : list Ticker) r n x, test l = Some r -> r !! n = Some x ->
    exists t, In t l /\ first_match (symbol t) = Some n.
Proof.
  split; [reflexivity|]. exact test_keys.
Qed.

(** The mapping [{N1: (3, 0.2), N2: (3, 0.5), N3: (2, 0.75)}]. *)
Definition test_correct_expected : gmap NetworkName (Z * f32) :=
  <[N1 := (3, f32_lit 2 10)]> (<[N2 := (3, f32_lit 5 10)]>
    {[N3 := (2, f32_lit 75 100)]}).

(** C7. On the batch of [test_correct], [test] returns exactly
    [{N1: (3, 0.2), N2: (3, 0.5), N3: (2, 0.75)}] (the means are the [f32]
    literals themselves), and each mean passes the unit test's
    [assert_float_absolute_eq!] with [f32::EPSILON]. *)
Theorem C7_test_correct :
  test test_correct_batch = Some test_correct_expected /\
  exists m1 m2 m3, test test_correct_batch =
    Some (<[N1 := (3, m1)]> (<[N2 := (3, m2)]> {[N3 := (2, m3)]})) /\
    f32_abs_eq (f32_lit 2 10) m1 f32_EPSILON = true /\
    f32_abs_eq (f32_lit 5 10) m2 f32_EPSILON = true /\
    f32_abs_eq (f32_lit 75 100) m3 f32_EPSILON = true.
Proof.
  split; [vm_compute; reflexivity|].
  eexists _, _, _. split; [vm_compute; reflexivity|].
  vm_compute. repeat split.
Qed.

(** C8. With an empty memo, ["S1"], ["S2"] and ["s3"] resolve to [N1],
    [N2] and [N3]; ["S3"] (matching is case-sensitive) and ["foo"] fail. *)
Theorem C8_resolve_examples :
  name_from_symbol "S1" ∅ = Some (N1, {["S1" := N1]}) /\
  name_from_symbol "S2" ∅ = Some (N2, {["S2" := N2]}) /\
  name_from_symbol "s3" ∅ = Some (N3, {["s3" := N3]}) /\
  name_from_symbol "S3" ∅ = None /\
  name_from_symbol "foo" ∅ = None.
Proof. vm_compute. repeat split. Qed.

(** Every accumulator entry present at finalization has count at least 1,
    as the specification words it. *)
Definition C9_as_stated : Prop :=
  forall (l : list Ticker) cache res, test_fold l = Some (cache, res) ->
  forall n c p, res !! n = Some (c, p) -> 1 <= c.

(** C9 (amended). After folding a batch, the count of an accumulator
    entry is its network's ticker count modulo 2^16.  An entry whose
    network received at most 65535 tickers has a count between 1 and
    65535, so [price / count as f32] does not divide by a zero count; an
    entry whose network received a multiple of 65536 tickers has the
    wrapped count 0. *)
Theorem C9_count_positive (l : list Ticker) cache res :
  test_fold l = Some (cache, res) ->
  forall n c p, res !! n = Some (c, p) ->
  c = Z.of_nat (length (tickers_of n l)) mod 65536 /\
  (Z.of_nat (length (tickers_of n l)) <= 65535 -> 1 <= c <= 65535) /\
  (Z.of_nat (length (tickers_of n l)) mod 65536 = 0 -> c = 0).
Proof.
  intros Hf n c p Hn.
  destruct (test_fold_spec l (test_fold_some_valid l _ Hf))
    as (c' & r & Hf' & _ & Hr).
  rewrite Hf in Hf'. injection Hf' as <- <-.
  rewrite Hr in Hn. unfold acc_spec in Hn.
  destruct (tickers_of n l) as [|u us]; [discriminate|].
  injection Hn as <- _. split; [done|]. split; [|done].
  intros Hle. simpl in *. rewrite Z.mod_small; lia.
Qed.

Lemma C9_count_positive_witness :
  match test_fold overflow_batch with
  | Some (cache, res) =>
      forall n c p, res !! n = Some (c, p) ->
      c = Z.of_nat (length (tickers_of n overflow_batch)) mod 65536 /\
      (Z.of_nat (length (tickers_of n overflow_batch)) <= 65535 ->
         1 <= c <= 65535) /\
      (Z.of_nat (length (tickers_of n overflow_batch)) mod 65536 = 0 -> c = 0)
  | None => False
  end.
Proof.
  destruct (test_fold overflow_batch) as [[cache res]|] eqn:E.
  - apply (C9_count_positive overflow_batch cache res E).
  - destruct overflow_batch_fold as (c & r & p & Hf & _). congruence.
Defined.

(** C9 as stated fails: 65536 tickers of ["S1"] leave [N1] with count 0. *)
Lemma C9_counterexample : ~ C9_as_stated.
Proof.
  intros H. destruct overflow_batch_fold as (c & r & p & Hf & Hn).
  specialize (H _ _ _ Hf _ _ _ Hn). lia.
Qed.

(** C10. The per-network count is a [u16] incremented with wrap-around:
    for a valid batch it is the number of tickers of that network modulo
    2^16, hence exact for at most 65535 tickers; 65536 tickers of one
    network give the count 0. *)
Theorem C10_count_wraps (l : list Ticker) :
  all_valid l = true ->
  exists r, test l = Some r /\
    forall n c mu, r !! n = Some (c, mu) ->
      c = Z.of_nat (length (tickers_of n l)) mod 65536 /\
      (Z.of_nat (length (tickers_of n l)) <= 65535 ->
         c = Z.of_nat (length (tickers_of n l))).
Proof.
  intros Hv. destruct (test_spec l Hv) as (r & Ht & Hr).
  exists r. split; [done|]. intros n c mu Hn. rewrite Hr in Hn.
  unfold acc_spec in Hn. destruct (tickers_of n l) as [|u us]; [discriminate|].
  injection Hn as <- _. split; [done|]. intros Hle. apply Z.mod_small. lia.
Qed.

Lemma C10_count_wraps_witness :
  exists r, test overflow_batch = Some r /\
    forall n c mu, r !! n = Some (c, mu) ->
      c = Z.of_nat (length (tickers_of n overflow_batch)) mod 65536 /\
      (Z.of_nat (length (tickers_of n overflow_batch)) <= 65535 ->
         c = Z.of_nat (length (tickers_of n overflow_batch))).
Proof. apply C10_count_wraps. vm_compute. reflexivity. Defined.

(** ** Further properties of [name_from_symbol] and [test] *)

Lemma name_from_symbol_result s (cache : Cache) :
  cache_ok cache -> fst <$> name_from_symbol s cache = first_match s.
Proof.
  intros Hok. destruct (first_match s) as [v|] eqn:E.
  - destruct (name_from_symbol_valid s cache v Hok E) as [c' ->]. done.
  - by rewrite (name_from_symbol_invalid s cache Hok E).
Qed.

Lemma test_step_same_acc a b t :
  same_acc a b -> same_acc (test_step a t) (test_step b t).
Proof.
  destruct a as [[c1 r1]|], b as [[c2 r2]|]; simpl; try done.
  intros (<- & Hok1 & Hok2).
  destruct (first_match (symbol t)) as [v|] eqn:E.
  - destruct (name_from_symbol_valid _ _ _ Hok1 E) as [c1' H1].
    destruct (name_from_symbol_valid _ _ _ Hok2 E) as [c2' H2].
    rewrite H1, H2.
    destruct (name_from_symbol_ok _ _ _ _ Hok1 H1) as [Hok1' _].
    destruct (name_from_symbol_ok _ _ _ _ Hok2 H2) as [Hok2' _].
    destruct (default _ _). simpl. auto.
  - by rewrite (name_from_symbol_invalid _ _ Hok1 E),
               (name_from_symbol_invalid _ _ Hok2 E).
Qed.

Lemma fold_same_acc (l : list Ticker) a b :
  same_acc a b -> same_acc (fold_left test_step l a) (fold_left test_step l b).
Proof.
  revert a b. induction l as [|t l IH]; simpl; [done|].
  intros a b H. apply IH, test_step_same_acc, H.
Qed.

Lemma name_from_symbol_dom s (cache : Cache) v cache' :
  name_from_symbol s cache = Some (v, cache') -> dom cache' = {[s]} ∪ dom cache.
Proof.
  unfold name_from_symbol. destruct (cache !! s) as [w|] eqn:E.
  - rewrite (name_from_symbol_in_hit _ _ _ _ E). intros [= _ <-].
    symmetry. apply subseteq_union_1_L. apply singleton_subseteq_l, elem_of_dom. eauto.
  - rewrite (name_from_symbol_in_miss _ _ _ E).
    destruct (track_find TRACK s); simpl; [|discriminate].
    intros [= _ <-]. by rewrite dom_insert_L.
Qed.

Lemma tickers_of_Permutation n (l l' : list Ticker) :
  Permutation l l' -> Permutation (tickers_of n l) (tickers_of n l').
Proof.
  unfold tickers_of. induction 1; simpl.
  - constructor.
  - destruct (bool_decide _); auto.
  - destruct (bool_decide (first_match (symbol x) = Some n)),
             (bool_decide (first_match (symbol y) = Some n)); auto.
    constructor.
  - eauto using Permutation_trans.
Qed.

Lemma length_tickers_of (l : list Ticker) :
  all_valid l = true ->
  length l = (length (tickers_of N1 l) + length (tickers_of N2 l) +
              length (tickers_of N3 l))%nat.
Proof.
  induction l as [|t l IH]; simpl; [done|].
  intros Hv. apply andb_prop in Hv as [Ht Hl].
  apply bool_decide_eq_true in Ht as [v Hv].
  rewrite (IH Hl). unfold tickers_of. simpl. rewrite Hv.
  destruct v; simpl; rewrite ?bool_decide_true, ?bool_decide_false
    by congruence; simpl; lia.
Qed.

Lemma tickers_of_length_le n (l : list Ticker) :
  (length (tickers_of n l) <= length l)%nat.
Proof. unfold tickers_of. apply filter_length_le. Qed.

(** X1. The memo never changes the result: folding [test_step] from any
    memo consistent with [TRACK] yields the same accumulator (or the same
    failure) as folding from the empty memo that [test] creates. *)
Theorem X1_memo_transparent (cache0 : Cache) (l : list Ticker) :
  cache_ok cache0 ->
  snd <$> test_fold_from cache0 l = snd <$> test_fold l.
Proof.
  intros Hok.
  assert (same_acc (test_fold_from cache0 l) (test_fold l)) as H.
  { apply fold_same_acc. simpl. split; [done|]. split; [done|].
    intros k v. by rewrite lookup_empty. }
  destruct (test_fold_from cache0 l) as [[c1 r1]|],
           (test_fold l) as [[c2 r2]|]; simpl in *; try done.
  by destruct H as [-> _].
Qed.

Lemma X1_memo_transparent_witness :
  snd <$> test_fold_from {["S1" := N1; "s3" := N3]}%string test_correct_batch =
  snd <$> test_fold test_correct_batch.
Proof.
  apply X1_memo_transparent. apply map_Forall_lookup.
  apply (bool_decide_unpack _). vm_compute. reflexivity.
Defined.

(** X2. With a memo consistent with [TRACK], [name_from_symbol] returns
    the network of the first table entry for the symbol and fails exactly
    when the symbol has no entry; the memo is kept consistent. *)
Theorem X2_name_from_symbol_agrees (s : string) (cache : Cache) :
  cache_ok cache ->
  fst <$> name_from_symbol s cache = first_match s /\
  (forall v cache', name_from_symbol s cache = Some (v, cache') ->
     cache_ok cache').
Proof.
  intros Hok. split; [by apply name_from_symbol_result|].
  intros v c' H. eapply name_from_symbol_ok; eauto.
Qed.

Lemma X2_name_from_symbol_agrees_witness :
  fst <$> name_from_symbol "S2" {["S1" := N1]}%string = first_match "S2" /\
  (forall v cache', name_from_symbol "S2" {["S1" := N1]}%string = Some (v, cache') ->
     cache_ok cache').
Proof.
  apply X2_name_from_symbol_agrees. apply map_Forall_lookup.
  apply (bool_decide_unpack _). vm_compute. reflexivity.
Defined.

(** X3. After [test]'s fold succeeds, its memo holds exactly the distinct
    symbols of the batch, each mapped to its first match in [TRACK]. *)
Theorem X3_final_memo (l : list Ticker) cache res :
  test_fold l = Some (cache, res) ->
  dom cache = list_to_set (symbol <$> l) /\ cache_ok cache.
Proof.
  intros Hf. split; [|by eapply test_fold_cache_ok].
  revert cache res Hf. induction l as [|t l IH] using rev_ind;
    intros cache res.
  - intros [= <- _]. by rewrite dom_empty_L.
  - rewrite test_fold_snoc. destruct (test_fold l) as [[c r]|] eqn:E; [|done].
    simpl. destruct (name_from_symbol (symbol t) c) as [[n c']|] eqn:En;
      [|done].
    destruct (default _ _). intros [= <- _].
    rewrite (name_from_symbol_dom _ _ _ _ En), (IH c r eq_refl).
    rewrite fmap_app, list_to_set_app_L. simpl. set_solver.
Qed.

Lemma X3_final_memo_witness :
  match test_fold test_correct_batch with
  | Some (cache, res) =>
      dom cache = list_to_set (symbol <$> test_correct_batch) /\ cache_ok cache
  | None => False
  end.
Proof.
  destruct (test_fold test_correct_batch) as [[cache res]|] eqn:E.
  - apply (X3_final_memo test_correct_batch cache res E).
  - vm_compute in E. discriminate.
Defined.

(** X4. Reordering a valid batch changes neither which networks appear in
    the result of [test] nor their counts (only the float means may
    differ, through the summation order). *)
Theorem X4_counts_permutation (l l' : list Ticker) :
  all_valid l = true -> Permutation l l' ->
  exists r r', test l = Some r /\ test l' = Some r' /\
    forall n, fst <$> r !! n = fst <$> r' !! n.
Proof.
  intros Hv Hp.
  assert (all_valid l' = true) as Hv'.
  { rewrite all_valid_In in Hv |- *. intros t Ht.
    apply Hv. eapply Permutation_in; [symmetry; exact Hp|exact Ht]. }
  destruct (test_spec l Hv) as (r & Ht & Hr).
  destruct (test_spec l' Hv') as (r' & Ht' & Hr').
  exists r, r'. split; [done|]. split; [done|]. intros n.
  rewrite Hr, Hr'. unfold acc_spec.
  pose proof (tickers_of_Permutation n l l' Hp) as Hn.
  destruct (tickers_of n l) as [|u us], (tickers_of n l') as [|u' us'];
    simpl; try done.
  - apply Permutation_nil in Hn. discriminate.
  - symmetry in Hn. apply Permutation_nil in Hn. discriminate.
  - apply Permutation_length in Hn. simpl in Hn. by rewrite Hn.
Qed.

Lemma X4_counts_permutation_witness :
  exists r r', test test_correct_batch = Some r /\
    test (rev test_correct_batch) = Some r' /\
    forall n, fst <$> r !! n = fst <$> r' !! n.
Proof.
  apply X4_counts_permutation.
  - vm_compute. reflexivity.
  - apply Permutation_rev.
Defined.

(** X5. Every ticker is counted once: for a valid batch of at most 65535
    tickers the counts of the result add up to the batch length. *)
Theorem X5_counts_total (l : list Ticker) :
  all_valid l = true -> Z.of_nat (length l) <= 65535 ->
  exists r, test l = Some r /\
    count_in r N1 + count_in r N2 + count_in r N3 = Z.of_nat (length l).
Proof.
  intros Hv Hle. destruct (test_spec l Hv) as (r & Ht & Hr).
  exists r. split; [done|].
  assert (forall n, count_in r n = Z.of_nat (length (tickers_of n l))) as Hc.
  { intros n. unfold count_in. rewrite Hr. unfold acc_spec.
    pose proof (tickers_of_length_le n l) as Hn.
    destruct (tickers_of n l) as [|u us]; simpl; [done|].
    simpl in Hn. apply Z.mod_small. lia. }
  rewrite !Hc, (length_tickers_of l Hv). lia.
Qed.

Lemma X5_counts_total_witness :
  exists r, test test_correct_batch = Some r /\
    count_in r N1 + count_in r N2 + count_in r N3 =
    Z.of_nat (length test_correct_batch).
Proof.
  apply X5_counts_total; vm_compute; [reflexivity|discriminate].
Defined.

(** X6. A sequence of resolutions sharing one consistent memo returns, for
    each symbol, its network in [TRACK], and fails exactly when some
    symbol of the sequence has no table entry. *)
Theorem X6_shared_memo_sequence (syms : list string) (cache : Cache) :
  cache_ok cache ->
  fst <$> resolve_all syms cache = mapM first_match syms.
Proof.
  revert cache. induction syms as [|s syms IH]; intros cache Hok; simpl; [done|].
  destruct (first_match s) as [v|] eqn:E; simpl.
  - destruct (name_from_symbol_valid s cache v Hok E) as [c' Hc]. rewrite Hc.
    destruct (name_from_symbol_ok _ _ _ _ Hok Hc) as [Hok' _].
    rewrite <- (IH c' Hok').
    by destruct (resolve_all syms c') as [[vs c'']|].
  - by rewrite (name_from_symbol_invalid s cache Hok E).
Qed.

Lemma X6_shared_memo_sequence_witness :
  fst <$> resolve_all ["S1"; "S2"; "s3"]%string ∅ =
  mapM first_match ["S1"; "S2"; "s3"]%string.
Proof.
  apply X6_shared_memo_sequence. apply map_Forall_lookup.
  apply (bool_decide_unpack _). vm_compute. reflexivity.
Defined.
